(** * Shallow embedding of the per-ID admission gateway of
    [src/src/can_fd_defense_fair_gateway.py] ([defensive_gateway] and the
    helpers it calls), with the properties of its specification.

    Modelling choices:
    - Python integers are [Z]; a CAN payload [bytes(msg.data)] is a
      [list byte].
    - [time.time()] is a float number of seconds; it is modelled as an
      integer number of microseconds, so the literal [1.0] of the sliding
      window becomes [WINDOW = 1000000].
    - Python dictionaries ([PER_ID_POLICY], [id_timestamps]) are stdpp
      [gmap]s; [d.get(k, dflt)] is [default dflt (d !! k)] and
      [d[k] = v] is [<[k := v]> d].
    - An exception raised by [struct.unpack] is the [Raise StructError]
      result of the step function. *)

From Stdlib Require Import ZArith List Bool Sorting.Sorted.
From Stdlib Require Import Strings.String Strings.Byte.
From stdpp Require Import base gmap strings list sorting.

Open Scope Z_scope.

(** ** Constants of the module *)

(** [LEGIT_ID = 0x200] *)
Definition LEGIT_ID : Z := 512.
(** [FLOOD_ID = 0x001] *)
Definition FLOOD_ID : Z := 1.
(** [DEFAULT_MAX_RATE = 15] *)
Definition DEFAULT_MAX_RATE : Z := 15.
(** The [1.0] second of the sliding window, in microseconds. *)
Definition WINDOW : Z := 1000000.

(** ** Policy entries and the policy table *)

(** A policy dict [{"max_rate": .., "label": .., "trusted": ..}]. *)
Record policy := mk_policy {
  max_rate : Z;
  label : string;
  trusted : bool
}.

(** A Python dict literal [{k1: v1, k2: v2, ...}]: the entries are inserted
    from left to right, a later entry for a key already present replaces
    its value. *)
Definition dict_literal {V} (entries : list (Z * V)) : gmap Z V :=
  fold_left (fun d kv => <[fst kv := snd kv]> d) entries ∅.

(** The entries written in the literal [PER_ID_POLICY = {...}]. *)
Definition PER_ID_POLICY_entries : list (Z * policy) :=
  [(LEGIT_ID, mk_policy 50 "LEGIT_ENGINE" true);
   (FLOOD_ID, mk_policy 10 "UNTRUSTED_FLOOD" false)].

Definition PER_ID_POLICY : gmap Z policy := dict_literal PER_ID_POLICY_entries.

(** The inline default of [PER_ID_POLICY.get(msg_id, {...})]. *)
Definition default_policy : policy :=
  mk_policy DEFAULT_MAX_RATE "UNKNOWN_ID" false.

(** [policy = PER_ID_POLICY.get(msg_id, default)] *)
Definition lookup_policy (tbl : gmap Z policy) (msg_id : Z) : policy :=
  default default_policy (tbl !! msg_id).

(** ** Sliding window of timestamps *)

(** Lines 121-127:
<<
    ts_list = id_timestamps.get(msg_id, [])
    ts_list = [ts for ts in ts_list if now - ts < 1.0]
    ts_list.append(now)
    id_timestamps[msg_id] = ts_list
    rate = len(ts_list)
>>
    with the window length [w] as a parameter ([WINDOW] in the gateway). *)
Definition record_and_count (w : Z) (id_timestamps : gmap Z (list Z))
    (msg_id now : Z) : gmap Z (list Z) * Z :=
  let ts_list := default [] (id_timestamps !! msg_id) in
  let ts_list := List.filter (fun ts => now - ts <? w) ts_list ++ [now] in
  (<[msg_id := ts_list]> id_timestamps, Z.of_nat (length ts_list)).

(** A sequence of calls [(msg_id, now)], in order. *)
Fixpoint record_all (w : Z) (id_timestamps : gmap Z (list Z))
    (calls : list (Z * Z)) : gmap Z (list Z) :=
  match calls with
  | [] => id_timestamps
  | (i, t) :: rest => record_all w (fst (record_and_count w id_timestamps i t)) rest
  end.

(** The arrival times of identifier [i] in a sequence of calls. *)
Definition times_of (i : Z) (calls : list (Z * Z)) : list Z :=
  map snd (List.filter (fun c => fst c =? i) calls).

(** ** Payload decoding and the plausibility check *)

Definition byte_val (b : byte) : Z := Z.of_N (Byte.to_N b).

(** [struct.unpack("<HBB", b)]: a little-endian unsigned 16-bit value and
    two unsigned 8-bit values; [struct.error] unless [len(b) == 4]. *)
Definition unpack_HBB (b : list byte) : option (Z * Z * Z) :=
  match b with
  | [b0; b1; b2; b3] =>
      Some (byte_val b0 + 256 * byte_val b1, byte_val b2, byte_val b3)
  | _ => None
  end.

(** [engine_payload_is_plausible(rpm, temp, fuel)], lines 62-76. *)
Definition engine_payload_is_plausible (rpm temp fuel : Z) : bool :=
  if negb ((0 <=? rpm) && (rpm <=? 8000)) then false
  else if negb ((-40 <=? temp) && (temp <=? 150)) then false
  else if negb ((0 <=? fuel) && (fuel <=? 100)) then false
  else true.

(** ** One iteration of the gateway loop *)

(** A received message: [msg.arbitration_id], [bytes(msg.data)] and the
    [now = time.time()] read right after the receive. *)
Record frame := mk_frame {
  arbitration_id : Z;
  data : list byte;
  now : Z
}.

Inductive outcome := Forwarded | BlockedRateLimit | BlockedSemanticCheck.

(** What an iteration decides and logs: the outcome, the [rate] and the
    policy ([label], [limit]) it was judged with. *)
Record decision := mk_decision {
  dec_outcome : outcome;
  observed_rate : Z;
  policy_used : policy
}.

(** The exceptions an iteration can raise. *)
Inductive exn := StructError.

Inductive result (A : Type) := Ok (a : A) | Raise (e : exn).
Arguments Ok {A} a.
Arguments Raise {A} e.

(** The data the loop reads and writes: the module-level [PER_ID_POLICY]
    and the local [id_timestamps]. *)
Record gw_state := mk_gw_state {
  policy_table : gmap Z policy;
  id_timestamps : gmap Z (list Z)
}.

(** The body of the [while] loop of [defensive_gateway] (lines 104-169)
    for one received message; [continue] after a block and the end of the
    body both end the iteration. *)
Definition gw_step (st : gw_state) (msg : frame) : result (decision * gw_state) :=
  let msg_id := arbitration_id msg in
  let payload := data msg in
  let policy := lookup_policy (policy_table st) msg_id in
  let '(ts_map, rate) := record_and_count WINDOW (id_timestamps st) msg_id (now msg) in
  let st' := mk_gw_state (policy_table st) ts_map in
  let decide o := Ok (mk_decision o rate policy, st') in
  if max_rate policy <? rate then decide BlockedRateLimit
  else if (msg_id =? LEGIT_ID) && (4 <=? Z.of_nat (length payload)) then
    match unpack_HBB (firstn 4 payload) with
    | None => Raise StructError
    | Some (rpm, temp, fuel) =>
        if negb (engine_payload_is_plausible rpm temp fuel)
        then decide BlockedSemanticCheck
        else decide Forwarded
    end
  else if msg_id =? FLOOD_ID then decide Forwarded
  else decide Forwarded.

(** The state at gateway start: [id_timestamps = {}]. *)
Definition gw_init : gw_state := mk_gw_state PER_ID_POLICY ∅.

(** The outcome of an iteration, when it does not raise. *)
Definition step_outcome (st : gw_state) (msg : frame) : option outcome :=
  match gw_step st msg with
  | Ok (d, _) => Some (dec_outcome d)
  | Raise _ => None
  end.

(** The rate [gw_step] judges [msg] with. *)
Definition step_rate (st : gw_state) (msg : frame) : Z :=
  snd (record_and_count WINDOW (id_timestamps st) (arbitration_id msg) (now msg)).

Example scenario_A :
  step_outcome gw_init (mk_frame LEGIT_ID [xc4; x09; x5a; x46] 0) = Some Forwarded.
Proof. reflexivity. Qed.

Example scenario_C :
  step_outcome gw_init (mk_frame LEGIT_ID [x28; x23; x5a; x46] 0) = Some BlockedSemanticCheck.
Proof. reflexivity. Qed.

Example short_legit :
  step_outcome gw_init (mk_frame LEGIT_ID [x28] 0) = Some Forwarded.
Proof. reflexivity. Qed.

(** ** The sliding window *)

Section Window.

Variable w : Z.

Lemma record_all_app (m : gmap Z (list Z)) (c1 c2 : list (Z * Z)) :
  record_all w m (c1 ++ c2) = record_all w (record_all w m c1) c2.
Proof.
  revert m; induction c1 as [|[i t] c1 IH]; intros m; simpl; [done|].
  apply IH.
Qed.

Lemma times_of_snoc (i j t0 : Z) (calls : list (Z * Z)) :
  times_of i (calls ++ [(j, t0)]) =
  times_of i calls ++ (if j =? i then [t0] else []).
Proof.
  unfold times_of. rewrite List.filter_app, map_app. simpl.
  by destruct (j =? i).
Qed.

(** Purging at [t0] and then at a later [t] purges as much as purging at [t]. *)
Lemma filter_window_later (t0 t : Z) (l : list Z) :
  t0 <= t ->
  List.filter (fun ts => t - ts <? w) (List.filter (fun ts => t0 - ts <? w) l) =
  List.filter (fun ts => t - ts <? w) l.
Proof.
  intros Hle; induction l as [|x l IH]; simpl; [done|].
  destruct (t0 - x <? w) eqn:E0; simpl;
    destruct (t - x <? w) eqn:E; rewrite ?IH; try done.
  apply Z.ltb_ge in E0; apply Z.ltb_lt in E; lia.
Qed.

(** The stored list of [i], seen from any time [t] not before the arrivals
    of [i], holds exactly the arrivals of [i] within the window of [t]. *)
Lemma window_invariant (i : Z) (calls : list (Z * Z)) (t : Z) :
  StronglySorted Z.le (times_of i calls ++ [t]) ->
  List.filter (fun ts => t - ts <? w) (default [] (record_all w ∅ calls !! i)) =
  List.filter (fun ts => t - ts <? w) (times_of i calls).
Proof.
  revert t; induction calls as [|[j t0] calls IH] using rev_ind; intros t Hs.
  - done.
  - rewrite record_all_app, times_of_snoc. simpl.
    rewrite times_of_snoc in Hs.
    destruct (Z.eqb_spec j i) as [->|Hne].
    + rewrite lookup_insert_eq. simpl.
      rewrite <- app_assoc in Hs. simpl in Hs.
      assert (Ht0 : t0 <= t).
      { eapply (StronglySorted_app_1_elem_of _ (times_of i calls ++ [t0]) [t]);
          [by rewrite <- app_assoc|set_solver|set_solver]. }
      assert (Hs0 : StronglySorted Z.le (times_of i calls ++ [t0])).
      { eapply (StronglySorted_app_1_l _ _ [t]). by rewrite <- app_assoc. }
      rewrite !List.filter_app. f_equal.
      rewrite filter_window_later by done.
      rewrite <- (filter_window_later t0 t (times_of i calls)) by done.
      rewrite <- IH by done.
      by rewrite filter_window_later.
    + rewrite lookup_insert_ne by congruence.
      rewrite app_nil_r. apply IH. by rewrite app_nil_r in Hs.
Qed.

End Window.

(** ** Shape of one gateway iteration *)

Lemma unpack_HBB_firstn (payload : list byte) :
  (4 <= length payload)%nat ->
  exists rpm temp fuel, unpack_HBB (firstn 4 payload) = Some (rpm, temp, fuel).
Proof.
  destruct payload as [|b0 [|b1 [|b2 [|b3 rest]]]]; simpl; intros H; try lia.
  eauto.
Qed.

(** Every iteration ends normally, keeps the policy table, stores the
    window computed by [record_and_count] and reports its rate and the
    looked-up policy. *)
Lemma gw_step_shape (st : gw_state) (msg : frame) :
  exists o,
    gw_step st msg =
    Ok (mk_decision o (step_rate st msg) (lookup_policy (policy_table st) (arbitration_id msg)),
        mk_gw_state (policy_table st)
          (fst (record_and_count WINDOW (id_timestamps st) (arbitration_id msg) (now msg)))).
Proof.
  destruct msg as [i p t]. unfold gw_step, step_rate; cbn [arbitration_id data now].
  destruct (record_and_count WINDOW (id_timestamps st) i t) as [ts_map rate]; cbn [fst snd].
  destruct (max_rate (lookup_policy (policy_table st) i) <? rate); [eauto|].
  destruct ((i =? LEGIT_ID) && (4 <=? Z.of_nat (length p))) eqn:E; [|destruct (i =? FLOOD_ID); eauto].
  apply andb_true_iff in E as [_ E]. apply Z.leb_le in E.
  destruct (unpack_HBB_firstn p) as (rpm & temp & fuel & ->); [lia|].
  destruct (negb _); eauto.
Qed.

(** ** A flood of [FLOOD_ID] frames, for the witnesses *)

(** Ten frames of [FLOOD_ID] within 10 microseconds. *)
Definition flood_state : gw_state :=
  mk_gw_state PER_ID_POLICY
    (record_all WINDOW ∅ (map (fun k => (FLOOD_ID, k)) [0; 1; 2; 3; 4; 5; 6; 7; 8; 9])).

(** The eleventh one, with the payload of [sender_attacker_flood]. *)
Definition flood_frame : frame := mk_frame FLOOD_ID [xde; xad; xbe; xef] 10.

Example flood_frame_blocked :
  step_outcome flood_state flood_frame = Some BlockedRateLimit.
Proof. vm_compute. reflexivity. Qed.

(** ** Claims *)

(** C1: when the rate counted for a frame exceeds the [max_rate] of its
    policy, the iteration blocks it for its rate, whatever its payload:
    the same frame with any other payload gives the very same result, so
    the semantic validation is never reached. *)
Theorem rate_limit_precedence (st : gw_state) (msg : frame)
  (Hrate : max_rate (lookup_policy (policy_table st) (arbitration_id msg)) < step_rate st msg) :
  step_outcome st msg = Some BlockedRateLimit /\
  forall payload : list byte,
    gw_step st (mk_frame (arbitration_id msg) payload (now msg)) = gw_step st msg.
Proof.
  destruct msg as [i p t]. unfold step_outcome, gw_step, step_rate in *.
  cbn [arbitration_id data now] in *.
  destruct (record_and_count WINDOW (id_timestamps st) i t) as [ts_map rate]; cbn [fst snd] in *.
  apply Z.ltb_lt in Hrate. rewrite Hrate. split; [done|]. intros payload.
  done.
Qed.

Lemma rate_limit_precedence_witness :
  max_rate (lookup_policy (policy_table flood_state) (arbitration_id flood_frame))
    < step_rate flood_state flood_frame /\
  step_outcome flood_state flood_frame = Some BlockedRateLimit /\
  forall payload : list byte,
    gw_step flood_state (mk_frame (arbitration_id flood_frame) payload (now flood_frame))
    = gw_step flood_state flood_frame.
Proof.
  assert (H : max_rate (lookup_policy (policy_table flood_state) (arbitration_id flood_frame))
                < step_rate flood_state flood_frame) by (vm_compute; reflexivity).
  split; [exact H|]. exact (rate_limit_precedence flood_state flood_frame H).
Defined.

(** C7: every iteration, for any identifier, payload bytes and payload
    length, ends with a decision and raises no exception. *)
Theorem gw_step_never_raises (st : gw_state) (msg : frame) :
  exists d st', gw_step st msg = Ok (d, st').
Proof.
  destruct (gw_step_shape st msg) as [o ->]. eauto.
Qed.

(** C8: an iteration on a frame of identifier [i] leaves the policy table
    and the timestamp list of every other identifier [j] unchanged. *)
Theorem gw_step_frame (st : gw_state) (msg : frame) (j : Z)
  (Hj : j <> arbitration_id msg) :
  exists d st', gw_step st msg = Ok (d, st') /\
    policy_table st' = policy_table st /\
    id_timestamps st' !! j = id_timestamps st !! j.
Proof.
  destruct (gw_step_shape st msg) as [o ->]. do 2 eexists; split; [done|].
  split; [done|]. simpl. unfold record_and_count; simpl.
  by rewrite lookup_insert_ne by congruence.
Qed.

Lemma gw_step_frame_witness :
  LEGIT_ID <> arbitration_id flood_frame /\
  exists d st', gw_step flood_state flood_frame = Ok (d, st') /\
    policy_table st' = policy_table flood_state /\
    id_timestamps st' !! LEGIT_ID = id_timestamps flood_state !! LEGIT_ID.
Proof.
  assert (H : LEGIT_ID <> arbitration_id flood_frame) by (simpl; unfold LEGIT_ID, FLOOD_ID; lia).
  split; [exact H|]. exact (gw_step_frame flood_state flood_frame LEGIT_ID H).
Defined.

(** C9: two frames with the same identifier and arrival time, evaluated
    from the same state, whose payloads have at least 4 bytes and agree on
    the first 4, get the same result: later payload bytes never matter. *)
Theorem payload_tail_irrelevant (st : gw_state) (i t : Z) (p1 p2 : list byte)
  (H1 : (4 <= length p1)%nat) (H2 : (4 <= length p2)%nat)
  (Hpre : firstn 4 p1 = firstn 4 p2) :
  gw_step st (mk_frame i p1 t) = gw_step st (mk_frame i p2 t).
Proof.
  unfold gw_step; cbn [arbitration_id data now].
  destruct (record_and_count WINDOW (id_timestamps st) i t) as [ts_map rate].
  rewrite Hpre.
  assert (E : (4 <=? Z.of_nat (length p1)) = (4 <=? Z.of_nat (length p2))).
  { destruct (Z.leb_spec 4 (Z.of_nat (length p1))), (Z.leb_spec 4 (Z.of_nat (length p2)));
      done || lia. }
  by rewrite E.
Qed.

Lemma payload_tail_irrelevant_witness :
  (4 <= length [xc4; x09; x5a; x46; x00])%nat /\ (4 <= length [xc4; x09; x5a; x46; xff; xff])%nat /\
  firstn 4 [xc4; x09; x5a; x46; x00] = firstn 4 [xc4; x09; x5a; x46; xff; xff] /\
  gw_step gw_init (mk_frame LEGIT_ID [xc4; x09; x5a; x46; x00] 0)
  = gw_step gw_init (mk_frame LEGIT_ID [xc4; x09; x5a; x46; xff; xff] 0).
Proof.
  assert (H1 : (4 <= length [xc4; x09; x5a; x46; x00])%nat) by (simpl; lia).
  assert (H2 : (4 <= length [xc4; x09; x5a; x46; xff; xff])%nat) by (simpl; lia).
  assert (H3 : firstn 4 [xc4; x09; x5a; x46; x00] = firstn 4 [xc4; x09; x5a; x46; xff; xff])
    by reflexivity.
  split; [exact H1|]. split; [exact H2|]. split; [exact H3|].
  exact (payload_tail_irrelevant gw_init LEGIT_ID 0 _ _ H1 H2 H3).
Defined.

(** C2: from the gateway start ([id_timestamps = {}]), after any sequence
    of calls in which the arrival times of [i] are non-decreasing and not
    after [t], [record_and_count] at [t] stores for [i] its stored list
    purged of the timestamps [ts] with [t - ts >= w] followed by [t], and
    returns the number of arrivals of [i] in [(t - w, t]], the current one
    included; at the first sighting of [i] it returns 1. *)
Theorem record_and_count_window (w : Z) (Hw : 0 < w) (calls : list (Z * Z)) (i t : Z)
  (Hmono : StronglySorted Z.le (times_of i calls ++ [t])) :
  let m := record_all w ∅ calls in
  fst (record_and_count w m i t) !! i =
    Some (List.filter (fun ts => t - ts <? w) (default [] (m !! i)) ++ [t]) /\
  snd (record_and_count w m i t) =
    Z.of_nat (length (List.filter (fun ts => (t - w <? ts) && (ts <=? t))
                        (times_of i calls ++ [t]))) /\
  (times_of i calls = [] -> snd (record_and_count w m i t) = 1).
Proof.
  cbn zeta. unfold record_and_count; cbn [fst snd].
  rewrite (window_invariant w i calls t Hmono).
  assert (Hin : List.filter (fun ts => (t - w <? ts) && (ts <=? t)) (times_of i calls ++ [t]) =
                List.filter (fun ts => t - ts <? w) (times_of i calls) ++ [t]).
  { rewrite List.filter_app. f_equal.
    - apply filter_ext_in. intros x Hx.
      assert (x <= t).
      { eapply (StronglySorted_app_1_elem_of _ _ [t]); [exact Hmono| |set_solver].
        by apply list_elem_of_In. }
      destruct (Z.ltb_spec (t - w) x), (Z.leb_spec x t), (Z.ltb_spec (t - x) w);
        simpl; done || lia.
    - simpl. destruct (Z.ltb_spec (t - w) t), (Z.leb_spec t t); simpl; done || lia. }
  split; [by rewrite lookup_insert_eq|]. split; [by rewrite Hin|].
  intros Hnone. rewrite Hnone. done.
Qed.

(** Three arrivals of [FLOOD_ID] and one of [LEGIT_ID]; the first arrival
    of [FLOOD_ID] has left the window at 1.3 s. *)
Definition window_calls : list (Z * Z) :=
  [(FLOOD_ID, 0); (LEGIT_ID, 5); (FLOOD_ID, 500000); (FLOOD_ID, 1200000)].

Lemma record_and_count_window_witness :
  0 < WINDOW /\ StronglySorted Z.le (times_of FLOOD_ID window_calls ++ [1300000]) /\
  snd (record_and_count WINDOW (record_all WINDOW ∅ window_calls) FLOOD_ID 1300000) = 3 /\
  (let m := record_all WINDOW ∅ window_calls in
   fst (record_and_count WINDOW m FLOOD_ID 1300000) !! FLOOD_ID =
     Some (List.filter (fun ts => 1300000 - ts <? WINDOW) (default [] (m !! FLOOD_ID)) ++ [1300000]) /\
   snd (record_and_count WINDOW m FLOOD_ID 1300000) =
     Z.of_nat (length (List.filter (fun ts => (1300000 - WINDOW <? ts) && (ts <=? 1300000))
                         (times_of FLOOD_ID window_calls ++ [1300000]))) /\
   (times_of FLOOD_ID window_calls = [] ->
    snd (record_and_count WINDOW m FLOOD_ID 1300000) = 1)).
Proof.
  assert (Hw : 0 < WINDOW) by (vm_compute; reflexivity).
  assert (Hs : StronglySorted Z.le (times_of FLOOD_ID window_calls ++ [1300000])).
  { change (times_of FLOOD_ID window_calls ++ [1300000]) with [0; 500000; 1200000; 1300000].
    repeat constructor; lia. }
  split; [exact Hw|]. split; [exact Hs|]. split; [vm_compute; reflexivity|].
  exact (record_and_count_window WINDOW Hw window_calls FLOOD_ID 1300000 Hs).
Defined.

Lemma byte_val_range (b : byte) : 0 <= byte_val b <= 255.
Proof. unfold byte_val. pose proof (Byte.to_N_bounded b). lia. Qed.

(** C4: for a payload of at least 4 bytes, [struct.unpack("<HBB", data[:4])]
    decodes rpm as the unsigned little-endian 16-bit value of bytes 0-1 and
    temperature and fuel as the unsigned 8-bit values of bytes 2 and 3, and
    [engine_payload_is_plausible] rejects exactly when rpm is outside
    [[0, 8000]], temperature outside [[-40, 150]] or fuel outside [[0, 100]]. *)
Theorem engine_validator_decode (b0 b1 b2 b3 : byte) (rest : list byte) :
  let rpm := byte_val b0 + 256 * byte_val b1 in
  let temp := byte_val b2 in
  let fuel := byte_val b3 in
  unpack_HBB (firstn 4 (b0 :: b1 :: b2 :: b3 :: rest)) = Some (rpm, temp, fuel) /\
  0 <= rpm <= 65535 /\ 0 <= temp <= 255 /\ 0 <= fuel <= 255 /\
  (engine_payload_is_plausible rpm temp fuel = false <->
     ~ (0 <= rpm <= 8000) \/ ~ (-40 <= temp <= 150) \/ ~ (0 <= fuel <= 100)).
Proof.
  cbn zeta.
  pose proof (byte_val_range b0); pose proof (byte_val_range b1).
  pose proof (byte_val_range b2); pose proof (byte_val_range b3).
  split; [done|]. split; [lia|]. split; [lia|]. split; [lia|].
  unfold engine_payload_is_plausible.
  set (r := byte_val b0 + 256 * byte_val b1). set (tp := byte_val b2). set (f := byte_val b3).
  destruct (Z.leb_spec 0 r), (Z.leb_spec r 8000), (Z.leb_spec (-40) tp),
    (Z.leb_spec tp 150), (Z.leb_spec 0 f), (Z.leb_spec f 100);
    simpl; split; intros; try done; lia.
Qed.

(** C10: the temperature is decoded unsigned, so it lies in [[0, 255]], the
    bound [-40 <= temp] always holds, and a payload of at least 4 bytes is
    accepted exactly when rpm <= 8000, temp <= 150 and fuel <= 100. *)
Theorem temp_lower_bound_inert (b0 b1 b2 b3 : byte) (rest : list byte) :
  let rpm := byte_val b0 + 256 * byte_val b1 in
  let temp := byte_val b2 in
  let fuel := byte_val b3 in
  unpack_HBB (firstn 4 (b0 :: b1 :: b2 :: b3 :: rest)) = Some (rpm, temp, fuel) /\
  0 <= temp <= 255 /\ (-40 <=? temp) = true /\
  (engine_payload_is_plausible rpm temp fuel = true <->
     rpm <= 8000 /\ temp <= 150 /\ fuel <= 100).
Proof.
  cbn zeta.
  pose proof (byte_val_range b0); pose proof (byte_val_range b1).
  pose proof (byte_val_range b2); pose proof (byte_val_range b3).
  split; [done|]. split; [lia|]. split; [apply Z.leb_le; lia|].
  unfold engine_payload_is_plausible.
  set (r := byte_val b0 + 256 * byte_val b1). set (tp := byte_val b2). set (f := byte_val b3).
  destruct (Z.leb_spec 0 r), (Z.leb_spec r 8000), (Z.leb_spec (-40) tp),
    (Z.leb_spec tp 150), (Z.leb_spec 0 f), (Z.leb_spec f 100);
    simpl; split; intros; try done; lia.
Qed.

Lemma PER_ID_POLICY_LEGIT :
  PER_ID_POLICY !! LEGIT_ID = Some (mk_policy 50 "LEGIT_ENGINE" true).
Proof. reflexivity. Qed.

(** C5: with the configured [PER_ID_POLICY], a frame whose identifier is
    not in the table is judged with the default policy ([DEFAULT_MAX_RATE],
    ["UNKNOWN_ID"], untrusted), its payload is never decoded nor checked
    (the result does not mention it), and it is forwarded whenever its
    rate does not exceed [DEFAULT_MAX_RATE]. *)
Theorem unknown_id_default_policy (st : gw_state) (msg : frame)
  (Htbl : policy_table st = PER_ID_POLICY)
  (Hunk : PER_ID_POLICY !! arbitration_id msg = None) :
  lookup_policy (policy_table st) (arbitration_id msg) = mk_policy DEFAULT_MAX_RATE "UNKNOWN_ID" false /\
  gw_step st msg =
    Ok (mk_decision (if DEFAULT_MAX_RATE <? step_rate st msg then BlockedRateLimit else Forwarded)
          (step_rate st msg) default_policy,
        mk_gw_state (policy_table st)
          (fst (record_and_count WINDOW (id_timestamps st) (arbitration_id msg) (now msg)))) /\
  (step_rate st msg <= DEFAULT_MAX_RATE -> step_outcome st msg = Some Forwarded).
Proof.
  destruct msg as [i p t]; cbn [arbitration_id data now] in *.
  assert (Hpol : lookup_policy (policy_table st) i = default_policy).
  { unfold lookup_policy. by rewrite Htbl, Hunk. }
  assert (Hi : (i =? LEGIT_ID) = false).
  { apply Z.eqb_neq. intros ->. by rewrite PER_ID_POLICY_LEGIT in Hunk. }
  assert (Hstep : gw_step st (mk_frame i p t) =
    Ok (mk_decision (if DEFAULT_MAX_RATE <? step_rate st (mk_frame i p t) then BlockedRateLimit else Forwarded)
          (step_rate st (mk_frame i p t)) default_policy,
        mk_gw_state (policy_table st) (fst (record_and_count WINDOW (id_timestamps st) i t)))).
  { unfold gw_step, step_rate; cbn [arbitration_id data now]. rewrite Hpol, Hi.
    destruct (record_and_count WINDOW (id_timestamps st) i t) as [ts_map rate]; cbn [fst snd].
    cbn [max_rate default_policy andb].
    destruct (DEFAULT_MAX_RATE <? rate); [done|]. by destruct (i =? FLOOD_ID). }
  split; [exact Hpol|]. split; [exact Hstep|].
  intros Hle. unfold step_outcome. rewrite Hstep. cbn [dec_outcome].
  by rewrite (proj2 (Z.ltb_ge _ _) Hle).
Qed.

(** Scenario D: the unknown identifier [0x777] at the gateway start. *)
Lemma unknown_id_default_policy_witness :
  policy_table gw_init = PER_ID_POLICY /\
  PER_ID_POLICY !! arbitration_id (mk_frame 1911 [x11; x22] 0) = None /\
  step_outcome gw_init (mk_frame 1911 [x11; x22] 0) = Some Forwarded.
Proof.
  assert (H1 : policy_table gw_init = PER_ID_POLICY) by reflexivity.
  assert (H2 : PER_ID_POLICY !! arbitration_id (mk_frame 1911 [x11; x22] 0) = None)
    by reflexivity.
  split; [exact H1|]. split; [exact H2|].
  apply (proj2 (proj2 (unknown_id_default_policy gw_init (mk_frame 1911 [x11; x22] 0) H1 H2))).
  vm_compute. discriminate.
Defined.

(** C3: at the gateway start, a [LEGIT_ID] frame (trusted, with the
    engine-telemetry schema) whose payload has only 2 bytes and whose rate
    (1) is within its limit (50) is forwarded by the fall-through branch
    meant for "other/unknown" identifiers, not blocked by the semantic
    check. *)
Theorem short_legit_payload_forwarded :
  step_rate gw_init (mk_frame LEGIT_ID [x28; x23] 0) = 1 /\
  step_outcome gw_init (mk_frame LEGIT_ID [x28; x23] 0) = Some Forwarded.
Proof. split; vm_compute; reflexivity. Qed.

(** ** The policy table *)

Lemma last_cons_Some {A} (x y : A) (l : list A) :
  last l = Some y -> last (x :: l) = Some y.
Proof. destruct l; simpl; [discriminate|done]. Qed.

(** A dict literal maps each key to the value of its last entry, and to
    nothing when the key has no entry. *)
Lemma fold_insert_lookup (entries : list (Z * policy)) (m : gmap Z policy) (k : Z) :
  fold_left (fun d kv => <[fst kv := snd kv]> d) entries m !! k =
  match last (map snd (List.filter (fun kv => fst kv =? k) entries)) with
  | Some v => Some v
  | None => m !! k
  end.
Proof.
  revert m; induction entries as [|[k' v] es IH]; intros m; simpl; [done|].
  rewrite IH. cbn [fst snd].
  destruct (Z.eqb_spec k' k) as [->|Hne]; simpl.
  - destruct (last (map snd (List.filter (fun kv => fst kv =? k) es))) as [v'|] eqn:E.
    + by rewrite (last_cons_Some v v' _ E).
    + apply last_None in E. rewrite E. simpl. by rewrite lookup_insert_eq.
  - destruct (last _); [done|]. by rewrite lookup_insert_ne.
Qed.

(** C6 (as stated, refuted): two entries of the dict literal for the same
    identifier do not make the construction fail; it yields a table in
    which the later entry has silently replaced the earlier one. *)
Lemma duplicate_policy_not_rejected :
  dict_literal [(LEGIT_ID, mk_policy 50 "LEGIT_ENGINE" true);
                (LEGIT_ID, mk_policy 1000 "SPOOFED" true)]
  = {[LEGIT_ID := mk_policy 1000 "SPOOFED" true]}.
Proof. reflexivity. Qed.

(** C6 (amended): building the table from a dict literal never fails; an
    identifier listed more than once gets the value of its last entry (the
    table has at most one entry per identifier); the configured table has
    entries for exactly [LEGIT_ID] and [FLOOD_ID]; no gateway iteration
    changes it. *)
Theorem policy_table_last_entry_wins (entries : list (Z * policy)) (k : Z)
    (st : gw_state) (msg : frame) :
  dict_literal entries !! k = last (map snd (List.filter (fun kv => fst kv =? k) entries)) /\
  (is_Some (PER_ID_POLICY !! k) <-> k = LEGIT_ID \/ k = FLOOD_ID) /\
  exists d st', gw_step st msg = Ok (d, st') /\ policy_table st' = policy_table st.
Proof.
  split.
  { unfold dict_literal. rewrite fold_insert_lookup. by destruct (last _). }
  split.
  { unfold PER_ID_POLICY, dict_literal. rewrite fold_insert_lookup.
    unfold PER_ID_POLICY_entries; cbn [List.filter fst].
    destruct (Z.eqb_spec LEGIT_ID k) as [Hl|H1], (Z.eqb_spec FLOOD_ID k) as [Hf|H2];
      cbn [map snd last].
    - unfold FLOOD_ID, LEGIT_ID in *; lia.
    - split; [by left|by eexists].
    - split; [by right|by eexists].
    - rewrite lookup_empty. split; [intros [? ?]; discriminate|].
      intros [?|?]; congruence. }
  destruct (gw_step_shape st msg) as [o ->]. eauto.
Qed.

(** * Further parts of the programs *)

(** ** Packing engine payloads *)

(** One field of [struct.pack] as a byte: [None] unless [0 <= z <= 255]. *)
Definition byte_of_Z (z : Z) : option byte :=
  if (0 <=? z) && (z <=? 255) then Byte.of_N (Z.to_N z) else None.

(** [struct.pack("<HBB", rpm, coolant_temp, fuel_level)]: [struct.error]
    ([None]) unless [0 <= rpm <= 65535] and the two others are in
    [0 .. 255]; the 16-bit field is written low byte first. *)
Definition pack_HBB (rpm coolant_temp fuel_level : Z) : option (list byte) :=
  if (0 <=? rpm) && (rpm <=? 65535) then
    match byte_of_Z (rpm mod 256), byte_of_Z (rpm / 256),
          byte_of_Z coolant_temp, byte_of_Z fuel_level with
    | Some b0, Some b1, Some b2, Some b3 => Some [b0; b1; b2; b3]
    | _, _, _, _ => None
    end
  else None.

(** [pack_engine_data] of the gateway file (lines 57-59) and of the attack
    file (lines 35-40). *)
Definition pack_engine_data (rpm coolant_temp fuel_level : Z) : option (list byte) :=
  pack_HBB rpm coolant_temp fuel_level.

(** [pack_engine_data] of the basic demo ([part_000], lines 48-50):
    [struct.pack("<HBBxxxx", ...)], the same 4 bytes followed by 4 pad
    bytes [x00]. *)
Definition pack_engine_data_padded (rpm coolant_temp fuel_level : Z) : option (list byte) :=
  match pack_HBB rpm coolant_temp fuel_level with
  | Some b => Some (b ++ [x00; x00; x00; x00])
  | None => None
  end.

Lemma byte_of_Z_in_range (z : Z) :
  0 <= z <= 255 -> exists b, byte_of_Z z = Some b /\ byte_val b = z.
Proof.
  intros Hz. unfold byte_of_Z.
  destruct (Z.leb_spec 0 z), (Z.leb_spec z 255); try lia; simpl.
  destruct (Byte.of_N (Z.to_N z)) as [b|] eqn:E.
  - exists b. split; [done|]. apply Byte.to_of_N in E. unfold byte_val. lia.
  - apply Byte.of_N_None_iff in E. lia.
Qed.

Lemma byte_of_Z_None (z : Z) : byte_of_Z z = None <-> ~ (0 <= z <= 255).
Proof.
  split.
  - intros E Hz. destruct (byte_of_Z_in_range z Hz) as (b & Eb & _). congruence.
  - intros Hz. unfold byte_of_Z.
    destruct (Z.leb_spec 0 z), (Z.leb_spec z 255); simpl; done || lia.
Qed.

Lemma byte_of_Z_Some (z : Z) (b : byte) : byte_of_Z z = Some b -> 0 <= z <= 255.
Proof.
  unfold byte_of_Z.
  destruct (Z.leb_spec 0 z), (Z.leb_spec z 255); simpl; done || lia.
Qed.

Lemma byte_of_Z_val (b : byte) : byte_of_Z (byte_val b) = Some b.
Proof.
  pose proof (byte_val_range b) as Hb. unfold byte_of_Z.
  destruct (Z.leb_spec 0 (byte_val b)), (Z.leb_spec (byte_val b) 255); try lia; simpl.
  unfold byte_val. rewrite N2Z.id. apply Byte.of_to_N.
Qed.

(** Packing in-range fields gives 4 bytes that [unpack_HBB] decodes back
    to the same fields. *)
Theorem pack_unpack_roundtrip (rpm temp fuel : Z)
  (Hr : 0 <= rpm <= 65535) (Ht : 0 <= temp <= 255) (Hf : 0 <= fuel <= 255) :
  exists payload, pack_engine_data rpm temp fuel = Some payload /\
    length payload = 4%nat /\ unpack_HBB payload = Some (rpm, temp, fuel).
Proof.
  unfold pack_engine_data, pack_HBB.
  destruct (Z.leb_spec 0 rpm), (Z.leb_spec rpm 65535); try lia; simpl.
  destruct (byte_of_Z_in_range (rpm mod 256)) as (b0 & -> & E0); [Z.div_mod_to_equations; lia|].
  destruct (byte_of_Z_in_range (rpm / 256)) as (b1 & -> & E1);
    [Z.div_mod_to_equations; lia|].
  destruct (byte_of_Z_in_range temp Ht) as (b2 & -> & E2).
  destruct (byte_of_Z_in_range fuel Hf) as (b3 & -> & E3).
  eexists; split; [done|]. split; [done|]. simpl.
  rewrite E0, E1, E2, E3. do 3 f_equal.
  pose proof (Z.div_mod rpm 256). lia.
Qed.

Lemma pack_unpack_roundtrip_witness :
  0 <= 2500 <= 65535 /\ 0 <= 90 <= 255 /\ 0 <= 70 <= 255 /\
  exists payload, pack_engine_data 2500 90 70 = Some payload /\
    length payload = 4%nat /\ unpack_HBB payload = Some (2500, 90, 70).
Proof.
  assert (Hr : 0 <= 2500 <= 65535) by lia.
  assert (Ht : 0 <= 90 <= 255) by lia.
  assert (Hf : 0 <= 70 <= 255) by lia.
  split; [exact Hr|]. split; [exact Ht|]. split; [exact Hf|].
  exact (pack_unpack_roundtrip 2500 90 70 Hr Ht Hf).
Defined.

(** [pack_engine_data] raises exactly when a field is out of the range of
    its format character. *)
Theorem pack_engine_data_error (rpm temp fuel : Z) :
  pack_engine_data rpm temp fuel = None <->
  ~ (0 <= rpm <= 65535 /\ 0 <= temp <= 255 /\ 0 <= fuel <= 255).
Proof.
  split.
  - intros E (Hr & Ht & Hf).
    destruct (pack_unpack_roundtrip rpm temp fuel Hr Ht Hf) as (p & Ep & _). congruence.
  - intros Hn. unfold pack_engine_data, pack_HBB.
    destruct (Z.leb_spec 0 rpm), (Z.leb_spec rpm 65535); simpl; try done.
    destruct (byte_of_Z (rpm mod 256)); [|done].
    destruct (byte_of_Z (rpm / 256)); [|done].
    destruct (byte_of_Z temp) eqn:Et; [|done].
    destruct (byte_of_Z fuel) eqn:Ef; [|done].
    exfalso. apply Hn. split; [lia|].
    split; eapply byte_of_Z_Some; eassumption.
Qed.

(** Every 4-byte payload is decoded to fields that [pack_engine_data]
    packs back to the same 4 bytes. *)
Theorem unpack_pack_roundtrip (b0 b1 b2 b3 : byte) :
  exists rpm temp fuel,
    unpack_HBB [b0; b1; b2; b3] = Some (rpm, temp, fuel) /\
    pack_engine_data rpm temp fuel = Some [b0; b1; b2; b3].
Proof.
  do 3 eexists; split; [reflexivity|].
  pose proof (byte_val_range b0); pose proof (byte_val_range b1).
  unfold pack_engine_data, pack_HBB.
  destruct (Z.leb_spec 0 (byte_val b0 + 256 * byte_val b1)),
    (Z.leb_spec (byte_val b0 + 256 * byte_val b1) 65535); try lia; simpl.
  assert (Em : (byte_val b0 + 256 * byte_val b1) mod 256 = byte_val b0)
    by (Z.div_mod_to_equations; lia).
  assert (Ed : (byte_val b0 + 256 * byte_val b1) / 256 = byte_val b1)
    by (Z.div_mod_to_equations; lia).
  by rewrite Em, Ed, !byte_of_Z_val.
Qed.

Lemma gw_step_prefix (st : gw_state) (i t : Z) (p1 p2 : list byte) :
  (4 <= length p1)%nat -> (4 <= length p2)%nat -> firstn 4 p1 = firstn 4 p2 ->
  gw_step st (mk_frame i p1 t) = gw_step st (mk_frame i p2 t).
Proof.
  intros H1 H2 Hpre. unfold gw_step; cbn [arbitration_id data now].
  destruct (record_and_count WINDOW (id_timestamps st) i t) as [ts_map rate].
  rewrite Hpre.
  destruct (Z.leb_spec 4 (Z.of_nat (length p1))), (Z.leb_spec 4 (Z.of_nat (length p2)));
    done || lia.
Qed.

(** The 8-byte payload of the basic demo ([struct.pack("<HBBxxxx", ..)])
    fails exactly when the 4-byte one does, and otherwise gets from the
    gateway the same decision and state as the 4-byte payload of the same
    fields. *)
Theorem padded_payload_same_decision (st : gw_state) (i t rpm temp fuel : Z) :
  match pack_engine_data rpm temp fuel, pack_engine_data_padded rpm temp fuel with
  | Some p4, Some p8 =>
      length p8 = 8%nat /\ gw_step st (mk_frame i p8 t) = gw_step st (mk_frame i p4 t)
  | None, None => True
  | _, _ => False
  end.
Proof.
  unfold pack_engine_data_padded. fold (pack_engine_data rpm temp fuel).
  destruct (pack_engine_data rpm temp fuel) as [p4|] eqn:E; [|done].
  assert (Hl : length p4 = 4%nat).
  { destruct (decide (0 <= rpm <= 65535 /\ 0 <= temp <= 255 /\ 0 <= fuel <= 255))
      as [(Hr & Ht & Hf)|Hn].
    - destruct (pack_unpack_roundtrip rpm temp fuel Hr Ht Hf) as (p & Ep & Hlp & _).
      congruence.
    - apply pack_engine_data_error in Hn. congruence. }
  split; [rewrite length_app, Hl; done|].
  apply gw_step_prefix; [rewrite length_app; lia|lia|].
  rewrite firstn_app, Hl. simpl. rewrite firstn_all2 by lia. apply app_nil_r.
Qed.

Lemma pack_engine_data_Some (rpm temp fuel : Z) (payload : list byte) :
  pack_engine_data rpm temp fuel = Some payload ->
  length payload = 4%nat /\ unpack_HBB payload = Some (rpm, temp, fuel).
Proof.
  intros E.
  destruct (decide (0 <= rpm <= 65535 /\ 0 <= temp <= 255 /\ 0 <= fuel <= 255))
    as [(Hr & Ht & Hf)|Hn].
  - destruct (pack_unpack_roundtrip rpm temp fuel Hr Ht Hf) as (p & Ep & Hlp & Hu).
    rewrite E in Ep. injection Ep as <-. done.
  - apply pack_engine_data_error in Hn. congruence.
Qed.

(** A [LEGIT_ID] frame carrying a payload made by [pack_engine_data], with
    the configured policy table and a rate within its limit of 50, is
    forwarded when its fields are plausible and blocked by the semantic
    check otherwise. *)
Theorem packed_engine_frame_decision (st : gw_state) (rpm temp fuel t : Z)
    (payload : list byte)
  (Htbl : policy_table st = PER_ID_POLICY)
  (Hpack : pack_engine_data rpm temp fuel = Some payload)
  (Hrate : step_rate st (mk_frame LEGIT_ID payload t) <= 50) :
  step_outcome st (mk_frame LEGIT_ID payload t) =
    Some (if engine_payload_is_plausible rpm temp fuel then Forwarded else BlockedSemanticCheck).
Proof.
  destruct (pack_engine_data_Some rpm temp fuel payload Hpack) as [Hl Hu].
  unfold step_outcome, gw_step, step_rate in *; cbn [arbitration_id data now] in *.
  destruct (record_and_count WINDOW (id_timestamps st) LEGIT_ID t) as [ts_map rate];
    cbn [fst snd] in *.
  unfold lookup_policy. rewrite Htbl, PER_ID_POLICY_LEGIT. cbn [default id max_rate].
  rewrite (proj2 (Z.ltb_ge 50 rate) Hrate).
  rewrite Z.eqb_refl, Hl. cbn [andb Z.of_nat Z.leb].
  rewrite firstn_all2 by lia. rewrite Hu.
  by destruct (engine_payload_is_plausible rpm temp fuel).
Qed.

(** The payload of [sender_legit] ([rpm=2500, coolant_temp=90,
    fuel_level=70]) at the gateway start. *)
Lemma packed_engine_frame_decision_witness :
  exists payload, pack_engine_data 2500 90 70 = Some payload /\
    step_outcome gw_init (mk_frame LEGIT_ID payload 0) = Some Forwarded.
Proof.
  exists [xc4; x09; x5a; x46].
  assert (Hp : pack_engine_data 2500 90 70 = Some [xc4; x09; x5a; x46]) by reflexivity.
  assert (Hr : step_rate gw_init (mk_frame LEGIT_ID [xc4; x09; x5a; x46] 0) <= 50)
    by (vm_compute; discriminate).
  split; [exact Hp|].
  exact (packed_engine_frame_decision gw_init 2500 90 70 0 _ eq_refl Hp Hr).
Defined.

(** ** The gateway loop over a sequence of received messages *)

(** The [while] loop of [defensive_gateway] over the messages it receives,
    in order (the empty receives, which only [continue], are left out); an
    exception ends the loop. *)
Fixpoint gw_run (st : gw_state) (msgs : list frame) : result (list decision * gw_state) :=
  match msgs with
  | [] => Ok ([], st)
  | msg :: rest =>
      match gw_step st msg with
      | Raise e => Raise e
      | Ok (d, st') =>
          match gw_run st' rest with
          | Ok (ds, st'') => Ok (d :: ds, st'')
          | Raise e => Raise e
          end
      end
  end.

Lemma filter_all_in_window (t0 t : Z) (l : list Z) :
  t0 <= t < t0 + WINDOW -> Forall (fun x => t0 <= x < t0 + WINDOW) l ->
  List.filter (fun ts => t - ts <? WINDOW) l = l.
Proof.
  intros Ht Hl. induction Hl as [|x l Hx Hl IH]; simpl; [done|].
  rewrite IH. destruct (Z.ltb_spec (t - x) WINDOW); [done|lia].
Qed.

Lemma gw_run_burst (i t0 : Z) (Hi : i <> LEGIT_ID) :
  forall (msgs : list frame) (st : gw_state) (prev : list Z),
  default [] (id_timestamps st !! i) = prev ->
  Forall (fun x => t0 <= x < t0 + WINDOW) (prev ++ map now msgs) ->
  Forall (fun m => arbitration_id m = i) msgs ->
  exists ds st', gw_run st msgs = Ok (ds, st') /\
    map observed_rate ds = map Z.of_nat (seq (length prev + 1) (length msgs)) /\
    map dec_outcome ds =
      map (fun k => if max_rate (lookup_policy (policy_table st) i) <? Z.of_nat k
                    then BlockedRateLimit else Forwarded)
          (seq (length prev + 1) (length msgs)) /\
    policy_table st' = policy_table st.
Proof.
  induction msgs as [|[j p t] msgs IH]; intros st prev Hprev Hwin Hid.
  - exists [], st. done.
  - apply Forall_cons in Hid as [Hj Hid']. cbn [arbitration_id] in Hj. subst j.
    apply Forall_app in Hwin as [Hwp Hwm]. cbn [map now] in Hwm.
    apply Forall_cons in Hwm as [Ht Hwm']. subst prev.
    assert (Hfil : List.filter (fun ts => t - ts <? WINDOW)
                     (default [] (id_timestamps st !! i)) = default [] (id_timestamps st !! i))
      by (apply (filter_all_in_window t0); done).
    set (st1 := mk_gw_state (policy_table st)
                  (<[i := default [] (id_timestamps st !! i) ++ [t]]> (id_timestamps st))).
    assert (Hstep : gw_step st (mk_frame i p t) =
      Ok (mk_decision (if max_rate (lookup_policy (policy_table st) i)
                            <? Z.of_nat (length (default [] (id_timestamps st !! i)) + 1)
                       then BlockedRateLimit else Forwarded)
            (Z.of_nat (length (default [] (id_timestamps st !! i)) + 1))
            (lookup_policy (policy_table st) i), st1)).
    { unfold gw_step, record_and_count; cbn [arbitration_id data now fst snd].
      rewrite Hfil, length_app. cbn [length]. rewrite Nat.add_1_r.
      rewrite (proj2 (Z.eqb_neq i LEGIT_ID) Hi). cbn [andb].
      destruct (_ <? _); [done|]. by destruct (i =? FLOOD_ID). }
    destruct (IH st1 (default [] (id_timestamps st !! i) ++ [t])) as (ds & st' & Hrun & Hr & Ho & Hp).
    + subst st1; cbn [id_timestamps]. by rewrite lookup_insert_eq.
    + rewrite <- app_assoc. apply Forall_app. split; [done|]. by constructor.
    + done.
    + exists (mk_decision (if max_rate (lookup_policy (policy_table st) i)
                            <? Z.of_nat (length (default [] (id_timestamps st !! i)) + 1)
                         then BlockedRateLimit else Forwarded)
            (Z.of_nat (length (default [] (id_timestamps st !! i)) + 1))
            (lookup_policy (policy_table st) i) :: ds), st'.
      cbn [gw_run]. rewrite Hstep, Hrun. split; [done|].
      rewrite length_app in Hr, Ho. cbn [length] in Hr, Ho |- *.
      cbn [seq map observed_rate dec_outcome].
      replace (S (length (default [] (id_timestamps st !! i)) + 1))
        with (length (default [] (id_timestamps st !! i)) + 1 + 1)%nat by lia.
      rewrite Hr, Ho, Hp. subst st1. cbn [policy_table]. split; [done|]. split; done.
Qed.

(** Frames of one identifier other than [LEGIT_ID] that all arrive within
    one window, to an identifier seen for the first time: the k-th one is
    judged with rate k, and is forwarded while k does not exceed the
    [max_rate] of its policy and blocked for its rate after that. *)
Theorem burst_within_window (st : gw_state) (i t0 : Z) (msgs : list frame)
  (Hi : i <> LEGIT_ID) (Hfresh : id_timestamps st !! i = None)
  (Hid : Forall (fun m => arbitration_id m = i) msgs)
  (Htimes : Forall (fun m => t0 <= now m < t0 + WINDOW) msgs) :
  exists ds st', gw_run st msgs = Ok (ds, st') /\
    map observed_rate ds = map Z.of_nat (seq 1 (length msgs)) /\
    map dec_outcome ds =
      map (fun k => if max_rate (lookup_policy (policy_table st) i) <? Z.of_nat k
                    then BlockedRateLimit else Forwarded)
          (seq 1 (length msgs)).
Proof.
  destruct (gw_run_burst i t0 Hi msgs st []) as (ds & st' & H1 & H2 & H3 & _).
  - by rewrite Hfresh.
  - simpl. by apply Forall_map.
  - done.
  - exists ds, st'. done.
Qed.

(** Scenario B: twelve [FLOOD_ID] frames 20 ms apart from the gateway
    start; the first ten are forwarded, the last two blocked. *)
Definition flood_burst : list frame :=
  map (fun k => mk_frame FLOOD_ID [xde; xad; xbe; xef] (20000 * k))
      [0; 1; 2; 3; 4; 5; 6; 7; 8; 9; 10; 11].

Lemma burst_within_window_witness :
  FLOOD_ID <> LEGIT_ID /\ id_timestamps gw_init !! FLOOD_ID = None /\
  Forall (fun m => arbitration_id m = FLOOD_ID) flood_burst /\
  Forall (fun m => 0 <= now m < 0 + WINDOW) flood_burst /\
  exists ds st', gw_run gw_init flood_burst = Ok (ds, st') /\
    map observed_rate ds = map Z.of_nat (seq 1 (length flood_burst)) /\
    map dec_outcome ds =
      map (fun k => if max_rate (lookup_policy (policy_table gw_init) FLOOD_ID) <? Z.of_nat k
                    then BlockedRateLimit else Forwarded)
          (seq 1 (length flood_burst)).
Proof.
  assert (H1 : FLOOD_ID <> LEGIT_ID) by (unfold FLOOD_ID, LEGIT_ID; lia).
  assert (H2 : id_timestamps gw_init !! FLOOD_ID = None) by reflexivity.
  assert (H3 : Forall (fun m => arbitration_id m = FLOOD_ID) flood_burst)
    by (repeat constructor).
  assert (H4 : Forall (fun m => 0 <= now m < 0 + WINDOW) flood_burst)
    by (unfold flood_burst, WINDOW; repeat constructor; simpl; lia).
  split; [exact H1|]. split; [exact H2|]. split; [exact H3|]. split; [exact H4|].
  exact (burst_within_window gw_init FLOOD_ID 0 flood_burst H1 H2 H3 H4).
Defined.

Example flood_burst_outcomes :
  match gw_run gw_init flood_burst with
  | Ok (ds, _) => map dec_outcome ds
  | Raise _ => []
  end = repeat Forwarded 10 ++ repeat BlockedRateLimit 2.
Proof. vm_compute. reflexivity. Qed.

(** ** The window after a call *)

(** After [record_and_count] at [now] with a positive window, the list
    stored for the identifier ends with [now] and holds only timestamps
    [ts] with [now - ts < w], whatever was stored before. *)
Theorem record_and_count_stored_in_window (w : Z) (Hw : 0 < w)
    (m : gmap Z (list Z)) (i t : Z) :
  exists l, fst (record_and_count w m i t) !! i = Some (l ++ [t]) /\
    Forall (fun ts => t - ts < w) (l ++ [t]) /\
    snd (record_and_count w m i t) = Z.of_nat (length l + 1).
Proof.
  exists (List.filter (fun ts => t - ts <? w) (default [] (m !! i))).
  unfold record_and_count; cbn [fst snd]. rewrite lookup_insert_eq.
  split; [done|]. split; [|by rewrite length_app].
  apply Forall_app. split; [|constructor; [lia|constructor]].
  apply Forall_forall. intros x Hx. apply list_elem_of_In, List.filter_In in Hx as [_ Hx].
  by apply Z.ltb_lt.
Qed.

Lemma record_and_count_stored_in_window_witness :
  0 < WINDOW /\
  exists l, fst (record_and_count WINDOW (record_all WINDOW ∅ window_calls) FLOOD_ID 1300000)
              !! FLOOD_ID = Some (l ++ [1300000]) /\
    Forall (fun ts => 1300000 - ts < WINDOW) (l ++ [1300000]) /\
    snd (record_and_count WINDOW (record_all WINDOW ∅ window_calls) FLOOD_ID 1300000)
      = Z.of_nat (length l + 1).
Proof.
  assert (Hw : 0 < WINDOW) by (vm_compute; reflexivity).
  split; [exact Hw|].
  exact (record_and_count_stored_in_window WINDOW Hw _ FLOOD_ID 1300000).
Defined.

Lemma PER_ID_POLICY_max_rate (i : Z) : 10 <= max_rate (lookup_policy PER_ID_POLICY i).
Proof.
  unfold lookup_policy, PER_ID_POLICY, dict_literal. rewrite fold_insert_lookup.
  unfold PER_ID_POLICY_entries; cbn [List.filter fst].
  destruct (LEGIT_ID =? i), (FLOOD_ID =? i); cbn; rewrite ?lookup_empty; cbn; unfold DEFAULT_MAX_RATE; lia.
Qed.

(** When every timestamp stored for the frame's identifier is at least one
    window old, the frame is counted with rate 1, the stored list restarts
    as [[now]], and with the configured policy table it is not blocked for
    its rate: an identifier that stays silent for one window recovers. *)
Theorem window_reset_after_silence (st : gw_state) (msg : frame)
  (Htbl : policy_table st = PER_ID_POLICY)
  (Hold : Forall (fun x => WINDOW <= now msg - x)
            (default [] (id_timestamps st !! arbitration_id msg))) :
  step_rate st msg = 1 /\
  step_outcome st msg <> Some BlockedRateLimit /\
  exists d st', gw_step st msg = Ok (d, st') /\
    id_timestamps st' !! arbitration_id msg = Some [now msg].
Proof.
  destruct msg as [i p t]; cbn [arbitration_id now] in *.
  assert (Hfil : List.filter (fun ts => t - ts <? WINDOW) (default [] (id_timestamps st !! i)) = []).
  { induction Hold as [|x l Hx Hl IH]; simpl; [done|].
    destruct (Z.ltb_spec (t - x) WINDOW); [lia|done]. }
  assert (Hrate : step_rate st (mk_frame i p t) = 1).
  { unfold step_rate, record_and_count; cbn [arbitration_id now fst snd]. by rewrite Hfil. }
  split; [exact Hrate|]. split.
  - pose proof (PER_ID_POLICY_max_rate i) as Hm.
    unfold step_outcome, gw_step; cbn [arbitration_id data now].
    unfold step_rate in Hrate; cbn [arbitration_id now] in Hrate.
    destruct (record_and_count WINDOW (id_timestamps st) i t) as [ts_map rate];
      cbn [snd] in Hrate; subst rate.
    rewrite Htbl, (proj2 (Z.ltb_ge _ 1)) by lia.
    destruct ((i =? LEGIT_ID) && _); [|by destruct (i =? FLOOD_ID)].
    destruct (unpack_HBB _) as [[[? ?] ?]|]; [|done].
    by destruct (negb _).
  - destruct (gw_step_shape st (mk_frame i p t)) as [o ->].
    do 2 eexists; split; [done|]. cbn [id_timestamps arbitration_id now].
    unfold record_and_count; cbn [fst]. by rewrite Hfil, lookup_insert_eq.
Qed.

(** A [FLOOD_ID] frame 1.2 s after the last one of [window_calls]. *)
Lemma window_reset_after_silence_witness :
  policy_table (mk_gw_state PER_ID_POLICY (record_all WINDOW ∅ window_calls)) = PER_ID_POLICY /\
  step_rate (mk_gw_state PER_ID_POLICY (record_all WINDOW ∅ window_calls))
    (mk_frame FLOOD_ID [] 2400000) = 1.
Proof.
  assert (H1 : policy_table (mk_gw_state PER_ID_POLICY (record_all WINDOW ∅ window_calls))
               = PER_ID_POLICY) by reflexivity.
  assert (H2 : Forall (fun x => WINDOW <= now (mk_frame FLOOD_ID [] 2400000) - x)
     (default [] (id_timestamps (mk_gw_state PER_ID_POLICY (record_all WINDOW ∅ window_calls))
                   !! arbitration_id (mk_frame FLOOD_ID [] 2400000)))).
  { cbn [id_timestamps arbitration_id now].
    assert (E : default [] (record_all WINDOW ∅ window_calls !! FLOOD_ID) = [500000; 1200000])
      by (vm_compute; reflexivity).
    rewrite E. unfold WINDOW.
    constructor; [lia|]. constructor; [lia|]. constructor. }
  split; [exact H1|].
  exact (proj1 (window_reset_after_silence _ _ H1 H2)).
Defined.

(** ** The first version of the gateway ([src/can_fd_defense_fair_gateway.py]) *)

(** [MAX_FRAMES_PER_ID_PER_SEC = 10] *)
Definition MAX_FRAMES_PER_ID_PER_SEC : Z := 10.

(** The body of its [while] loop (lines 63-91): the same sliding window,
    one global limit, and a decode of [LEGIT_ID] payloads for the log only.
    It returns the outcome, the rate and the new [id_timestamps]. *)
Definition gw_step_v1 (id_timestamps : gmap Z (list Z)) (msg : frame)
    : result (outcome * Z * gmap Z (list Z)) :=
  let msg_id := arbitration_id msg in
  let payload := data msg in
  let '(ts_map, rate) := record_and_count WINDOW id_timestamps msg_id (now msg) in
  if MAX_FRAMES_PER_ID_PER_SEC <? rate then Ok (BlockedRateLimit, rate, ts_map)
  else if (msg_id =? LEGIT_ID) && (4 <=? Z.of_nat (length payload)) then
    match unpack_HBB (firstn 4 payload) with
    | None => Raise StructError
    | Some _ => Ok (Forwarded, rate, ts_map)
    end
  else if msg_id =? FLOOD_ID then Ok (Forwarded, rate, ts_map)
  else Ok (Forwarded, rate, ts_map).

(** The first version never raises, ignores the payload, and forwards a
    frame exactly when the rate of its identifier is at most 10. *)
Theorem gw_step_v1_rate_only (ts : gmap Z (list Z)) (msg : frame) :
  let r := record_and_count WINDOW ts (arbitration_id msg) (now msg) in
  gw_step_v1 ts msg =
    Ok (if MAX_FRAMES_PER_ID_PER_SEC <? snd r then BlockedRateLimit else Forwarded,
        snd r, fst r).
Proof.
  destruct msg as [i p t]. unfold gw_step_v1; cbn [arbitration_id data now].
  destruct (record_and_count WINDOW ts i t) as [ts_map rate]; cbn zeta; cbn [fst snd].
  destruct (MAX_FRAMES_PER_ID_PER_SEC <? rate); [done|].
  destruct ((i =? LEGIT_ID) && (4 <=? Z.of_nat (length p))) eqn:E;
    [|by destruct (i =? FLOOD_ID)].
  apply andb_true_iff in E as [_ E]. apply Z.leb_le in E.
  by destruct (unpack_HBB_firstn p) as (rpm & temp & fuel & ->); [lia|].
Qed.

(** Both versions keep the same rate window and count the same rate for
    every frame; with the configured policy table they take the same
    decision on every [FLOOD_ID] frame. *)
Theorem gw_step_versions_agree (st : gw_state) (msg : frame)
  (Htbl : policy_table st = PER_ID_POLICY) :
  match gw_step st msg, gw_step_v1 (id_timestamps st) msg with
  | Ok (d, st'), Ok (o, rate, ts') =>
      id_timestamps st' = ts' /\ observed_rate d = rate /\
      (arbitration_id msg = FLOOD_ID -> dec_outcome d = o)
  | _, _ => False
  end.
Proof.
  destruct msg as [i p t].
  rewrite gw_step_v1_rate_only. cbn zeta.
  destruct (gw_step_shape st (mk_frame i p t)) as [o Ho]. rewrite Ho.
  unfold step_rate in *; cbn [arbitration_id now] in *.
  cbn [fst snd id_timestamps observed_rate dec_outcome].
  split; [done|]. split; [done|]. intros ->.
  unfold gw_step in Ho; cbn [arbitration_id data now] in Ho.
  destruct (record_and_count WINDOW (id_timestamps st) FLOOD_ID t) as [ts_map rate].
  cbn [fst snd] in *.
  rewrite Htbl in Ho. unfold lookup_policy in Ho.
  change (PER_ID_POLICY !! FLOOD_ID) with (Some (mk_policy 10 "UNTRUSTED_FLOOD" false)) in Ho.
  cbn [default id max_rate] in Ho. unfold MAX_FRAMES_PER_ID_PER_SEC.
  destruct (10 <? rate); [by injection Ho|].
  change ((FLOOD_ID =? LEGIT_ID)) with false in Ho. cbn [andb] in Ho.
  change (FLOOD_ID =? FLOOD_ID) with true in Ho. by injection Ho.
Qed.

Lemma gw_step_versions_agree_witness :
  policy_table flood_state = PER_ID_POLICY /\
  match gw_step flood_state flood_frame, gw_step_v1 (id_timestamps flood_state) flood_frame with
  | Ok (d, st'), Ok (o, rate, ts') =>
      id_timestamps st' = ts' /\ observed_rate d = rate /\
      (arbitration_id flood_frame = FLOOD_ID -> dec_outcome d = o)
  | _, _ => False
  end.
Proof.
  assert (H : policy_table flood_state = PER_ID_POLICY) by reflexivity.
  split; [exact H|]. exact (gw_step_versions_agree flood_state flood_frame H).
Defined.

(** ** The insecure receiver of the attack file *)

(** The two counters of [receiver_insecure]. *)
Record rx_counts := mk_rx_counts {
  count_legit : Z;
  count_attack : Z
}.

(** One iteration of the loop of [receiver_insecure] (lines 63-81). *)
Definition rx_step (c : rx_counts) (msg : frame) : result rx_counts :=
  let msg_id := arbitration_id msg in
  let payload := data msg in
  if msg_id =? LEGIT_ID then
    let c' := mk_rx_counts (count_legit c + 1) (count_attack c) in
    if 4 <=? Z.of_nat (length payload) then
      match unpack_HBB (firstn 4 payload) with
      | None => Raise StructError
      | Some _ => Ok c'
      end
    else Ok c'
  else if msg_id =? FLOOD_ID then Ok (mk_rx_counts (count_legit c) (count_attack c + 1))
  else Ok c.

(** The loop over the received messages, from [count_legit = 0] and
    [count_attack = 0]. *)
Fixpoint rx_run (c : rx_counts) (msgs : list frame) : result rx_counts :=
  match msgs with
  | [] => Ok c
  | msg :: rest =>
      match rx_step c msg with
      | Ok c' => rx_run c' rest
      | Raise e => Raise e
      end
  end.

Definition count_id (i : Z) (msgs : list frame) : Z :=
  Z.of_nat (length (List.filter (fun m => arbitration_id m =? i) msgs)).

Lemma rx_run_counts_from (msgs : list frame) (c : rx_counts) :
  rx_run c msgs =
    Ok (mk_rx_counts (count_legit c + count_id LEGIT_ID msgs)
                     (count_attack c + count_id FLOOD_ID msgs)).
Proof.
  revert c; induction msgs as [|[i p t] msgs IH]; intros c.
  - destruct c; cbn. unfold count_id; cbn. by rewrite !Z.add_0_r.
  - cbn [rx_run]. unfold rx_step; cbn [arbitration_id data].
    unfold count_id; cbn [List.filter arbitration_id].
    destruct (Z.eqb_spec i LEGIT_ID) as [->|Hl].
    + assert (Hf : (LEGIT_ID =? FLOOD_ID) = false) by reflexivity. rewrite Hf.
      assert (Hc : exists c', (if 4 <=? Z.of_nat (length p)
                  then match unpack_HBB (firstn 4 p) with
                       | Some _ => Ok (mk_rx_counts (count_legit c + 1) (count_attack c))
                       | None => Raise StructError end
                  else Ok (mk_rx_counts (count_legit c + 1) (count_attack c))) = Ok c' /\
                  c' = mk_rx_counts (count_legit c + 1) (count_attack c)).
      { destruct (Z.leb_spec 4 (Z.of_nat (length p))); [|eauto].
        destruct (unpack_HBB_firstn p) as (? & ? & ? & ->); [lia|eauto]. }
      destruct Hc as (c' & -> & ->). rewrite IH. cbn [count_legit count_attack length].
      unfold count_id. f_equal. f_equal; lia.
    + destruct (Z.eqb_spec i FLOOD_ID) as [->|Hf]; rewrite IH; unfold count_id;
        cbn [count_legit count_attack length]; f_equal; f_equal; lia.
Qed.

(** [receiver_insecure] never raises, and at the end [count_legit] is the
    number of received [LEGIT_ID] frames and [count_attack] the number of
    received [FLOOD_ID] frames; other identifiers are not counted. *)
Theorem rx_run_counts (msgs : list frame) :
  rx_run (mk_rx_counts 0 0) msgs =
    Ok (mk_rx_counts (count_id LEGIT_ID msgs) (count_id FLOOD_ID msgs)).
Proof. by rewrite rx_run_counts_from. Qed.
